(** * Link hooks of chainer: registration, scoped activation and dispatch

  A shallow embedding of [chainer/link_hook.py] (class [LinkHook]) and the
  properties of its context-manager protocol.  Python objects are referred
  to by identity, the registry is the insertion-ordered dictionary the
  thread owns, and client code (the overridable callbacks, the body of a
  [with] statement, the wrapped forward computation) is an arbitrary
  function on the world that may raise. *)

From Stdlib Require Import String List Bool Arith Lia.
Import ListNotations.
Open Scope string_scope.
Open Scope list_scope.

Set Implicit Arguments.

(** ** Object identities and exceptions *)

(** A hook instance ([self]) and a link are known by their identity. *)
Definition HookRef := nat.
Definition LinkRef := nat.

(** [KeyError] is what the module raises itself and what a failed dictionary
  access raises; [Exception] stands for any other error of client code. *)
Inductive exn : Type :=
| KeyError (arg : string)
| Exception (what : string).

Inductive result (A : Type) : Type :=
| Return (a : A)
| Raise (e : exn).
Arguments Return {A} a.
Arguments Raise {A} e.

(** ** The insertion-ordered dictionary keyed by hook names *)

Module OrderedDict.
Section Dict.
Variable V : Type.

Definition t := list (string * V).

Definition empty : t := [].

(** [d.get(k)] *)
Fixpoint get (k : string) (d : t) : option V :=
  match d with
  | [] => None
  | (k', v) :: d' => if String.eqb k k' then Some v else get k d'
  end.

(** [k in d] *)
Definition contains (k : string) (d : t) : bool :=
  match get k d with Some _ => true | None => false end.

(** [d[k] = v]: a known key keeps its position, a new key goes last. *)
Fixpoint set (k : string) (v : V) (d : t) : t :=
  match d with
  | [] => [(k, v)]
  | (k', v') :: d' =>
      if String.eqb k k' then (k, v) :: d' else (k', v') :: set k v d'
  end.

(** [del d[k]] on a dictionary that has the key. *)
Definition del (k : string) (d : t) : t :=
  filter (fun kv => negb (String.eqb k (fst kv))) d.

(** [d.values()], in insertion order. *)
Definition values (d : t) : list V := map snd d.
End Dict.
End OrderedDict.

Definition registry : Type := OrderedDict.t HookRef.

Section LinkHooks.

(** State of the client program other than the registries (the attributes
    of hook objects, accumulated statistics, ...) and the values passed to
    and returned by forward methods. *)
Variable U : Type.
Variable Val : Type.

(** Modelled from the spec: [chainer._get_link_hooks] and the links'
    own hook dictionaries are defined outside this module.  The global
    registry is a mapping from hook name to hook, one per execution
    context, and each node owns a node-local registry of the same shape;
    both keep registration order. *)
Record World : Type := {
  link_hooks : registry;
  local_link_hooks : LinkRef -> registry;
  user : U
}.

(** The callback data handed to [forward_preprocess] and
    [forward_postprocess]; [out] is present in the post phase only. *)
Record CallRecord : Type := {
  link : LinkRef;
  forward_method : string;
  args : list Val;
  kwargs : list (string * Val);
  out : option Val
}.

(** Client code: runs on the world, returns or raises. *)
Definition code (A : Type) : Type := World -> result A * World.

(** A hook object: its [name] attribute and its four methods.  [tt] is
    Python's [None]. *)
Record LinkHook : Type := {
  name : string;
  added : option LinkRef -> code unit;
  deleted : option LinkRef -> code unit;
  forward_preprocess : CallRecord -> code unit;
  forward_postprocess : CallRecord -> code unit
}.

(** The methods as [class LinkHook] defines them: every body is [pass]. *)
Definition LinkHook_added (_ : option LinkRef) : code unit :=
  fun w => (Return tt, w).
Definition LinkHook_deleted (_ : option LinkRef) : code unit :=
  fun w => (Return tt, w).
Definition LinkHook_forward_preprocess (_ : CallRecord) : code unit :=
  fun w => (Return tt, w).
Definition LinkHook_forward_postprocess (_ : CallRecord) : code unit :=
  fun w => (Return tt, w).

(** An instance of the base class itself. *)
Definition LinkHook_base : LinkHook := {|
  name := "LinkHook";
  added := LinkHook_added;
  deleted := LinkHook_deleted;
  forward_preprocess := LinkHook_forward_preprocess;
  forward_postprocess := LinkHook_forward_postprocess
|}.

(** The hook objects of the program, by identity.  [name] is the class
    attribute read through the instance; nothing in the module assigns
    it, so a hook keeps its name. *)
Variable hooks : HookRef -> LinkHook.

(** ** Callback log

    Every callback invocation issued by the hook machinery is recorded,
    with the global registry as it stands at the moment of the call.  The
    log is out of reach of client code. *)
Inductive event : Type :=
| CallAdded (h : HookRef) (l : option LinkRef) (seen : registry)
| CallDeleted (h : HookRef) (l : option LinkRef) (seen : registry)
| CallPreprocess (h : HookRef) (r : CallRecord)
| CallPostprocess (h : HookRef) (r : CallRecord).

Record State : Type := {
  world : World;
  calls : list event
}.

(** ** State and exception monad *)
Definition M (A : Type) : Type := State -> result A * State.

Definition ret {A} (a : A) : M A := fun s => (Return a, s).

Definition bind {A B} (m : M A) (k : A -> M B) : M B :=
  fun s => match m s with
           | (Return a, s') => k a s'
           | (Raise e, s') => (Raise e, s')
           end.

Definition raise {A} (e : exn) : M A := fun s => (Raise e, s).

Local Notation "x <- m ;; k" := (bind m (fun x => k))
  (at level 61, m at next level, right associativity).
Local Notation "m ;; k" := (bind m (fun _ => k))
  (at level 61, right associativity).

(** Client code run by the machinery: the world changes, the log does not. *)
Definition run {A} (c : code A) : M A :=
  fun s => let (r, w) := c (world s) in
           (r, {| world := w; calls := calls s |}).

(** One more entry at the end of the log. *)
Definition logged (e : event) (s : State) : State :=
  {| world := world s; calls := calls s ++ [e] |}.

Definition with_link_hooks (f : registry -> registry) (w : World) : World :=
  {| link_hooks := f (link_hooks w);
     local_link_hooks := local_link_hooks w;
     user := user w |}.

Definition with_local_link_hooks (n : LinkRef) (f : registry -> registry)
    (w : World) : World :=
  {| link_hooks := link_hooks w;
     local_link_hooks := fun l => if Nat.eqb l n then f (local_link_hooks w l)
                                  else local_link_hooks w l;
     user := user w |}.

(** ** Operations on the registry of the current thread

    [link_hooks = chainer._get_link_hooks()] yields the dictionary object
    itself, so every read below sees the registry as it is now and every
    update is made in place. *)

(** [key in link_hooks] *)
Definition contains (key : string) : M bool :=
  fun s => (Return (OrderedDict.contains key (link_hooks (world s))), s).

(** [link_hooks[key] = h] *)
Definition setitem (key : string) (h : HookRef) : M unit :=
  fun s => (Return tt,
            {| world := with_link_hooks (OrderedDict.set key h) (world s);
               calls := calls s |}).

(** [link_hooks[key]]: [KeyError(key)] when the key is missing. *)
Definition getitem (key : string) : M HookRef :=
  fun s => match OrderedDict.get key (link_hooks (world s)) with
           | Some h => (Return h, s)
           | None => (Raise (KeyError key), s)
           end.

(** [del link_hooks[key]]: [KeyError(key)] when the key is missing. *)
Definition delitem (key : string) : M unit :=
  fun s => if OrderedDict.contains key (link_hooks (world s))
           then (Return tt,
                 {| world := with_link_hooks (OrderedDict.del key) (world s);
                    calls := calls s |})
           else (Raise (KeyError key), s).

(** ** Method calls on hook objects *)

(** [h.added(l)] *)
Definition call_added (h : HookRef) (l : option LinkRef) : M unit :=
  fun s => run (added (hooks h) l)
             (logged (CallAdded h l (link_hooks (world s))) s).

(** [h.deleted(l)] *)
Definition call_deleted (h : HookRef) (l : option LinkRef) : M unit :=
  fun s => run (deleted (hooks h) l)
             (logged (CallDeleted h l (link_hooks (world s))) s).

(** [h.forward_preprocess(r)] *)
Definition call_forward_preprocess (h : HookRef) (r : CallRecord) : M unit :=
  fun s => run (forward_preprocess (hooks h) r) (logged (CallPreprocess h r) s).

(** [h.forward_postprocess(r)] *)
Definition call_forward_postprocess (h : HookRef) (r : CallRecord) : M unit :=
  fun s => run (forward_postprocess (hooks h) r) (logged (CallPostprocess h r) s).

(** ** The context-manager protocol of [LinkHook] *)

(** The message of the error raised on a name that is taken:
    ['hook %s already exists' % self.name]. *)
Definition already_exists (n : string) : exn :=
  KeyError ("hook " ++ n ++ " already exists")%string.

(** [LinkHook.__enter__(self)] *)
Definition __enter__ (self : HookRef) : M HookRef :=
  present <- contains (name (hooks self)) ;;
  if present then raise (already_exists (name (hooks self)))
  else
    setitem (name (hooks self)) self ;;
    call_added self None ;;
    ret self.

(** [LinkHook.__exit__(self, *_)]: the exception details are ignored and
    the method returns [None]. *)
Definition __exit__ (self : HookRef) (exc_info : option exn) : M unit :=
  stored <- getitem (name (hooks self)) ;;
  call_deleted stored None ;;
  delitem (name (hooks self)).

(** [with cm as x: body(x)], as the language defines it: [__exit__] runs
    however the body ends; it returned [None], so an error of the body is
    raised again after it. *)
Definition with_statement {A} (cm : HookRef) (body : HookRef -> M A) : M A :=
  fun s =>
    match __enter__ cm s with
    | (Raise e, s1) => (Raise e, s1)
    | (Return x, s1) =>
        match body x s1 with
        | (Return a, s2) =>
            match __exit__ cm None s2 with
            | (Return _, s3) => (Return a, s3)
            | (Raise e', s3) => (Raise e', s3)
            end
        | (Raise e, s2) =>
            match __exit__ cm (Some e) s2 with
            | (Return _, s3) => (Raise e, s3)
            | (Raise e', s3) => (Raise e', s3)
            end
        end
    end.

(** ** Node-local registration and the dispatcher *)

(** Modelled from the spec: [add_hook] of the node registration interface
    is defined in the link class, outside this module.  It is [register] of
    section 4.1 on the node-local registry: a name already present in that
    scope is refused, otherwise the hook is stored and its [added] callback
    is invoked with the owning node. *)
Definition add_hook (node : LinkRef) (hook : HookRef) : M unit :=
  fun s =>
    if OrderedDict.contains (name (hooks hook))
         (local_link_hooks (world s) node)
    then raise (already_exists (name (hooks hook))) s
    else
      call_added hook (Some node)
        {| world := with_local_link_hooks node
                      (OrderedDict.set (name (hooks hook)) hook) (world s);
           calls := calls s |}.

(** Modelled from the spec: [snapshot] of section 4.1, the hooks of a
    registry in registration order. *)
Definition snapshot (r : registry) : list HookRef := OrderedDict.values r.

(** Run one callback on every hook of a snapshot, in snapshot order; the
    first error ends the phase. *)
Fixpoint for_each (f : HookRef -> M unit) (hs : list HookRef) : M unit :=
  match hs with
  | [] => ret tt
  | h :: hs' => f h ;; for_each f hs'
  end.

Definition with_out (r : CallRecord) (v : Val) : CallRecord :=
  {| link := link r; forward_method := forward_method r;
     args := args r; kwargs := kwargs r; out := Some v |}.

(** Modelled from the spec: the dispatcher entry point of section 4.3,
    invoke-with-hooks(node, method_name, args, kwargs, computation); the
    call path of the links is outside this module.  Steps 1 to 7 of the
    algorithm, in order. *)
Definition invoke_with_hooks (node : LinkRef) (method_name : string)
    (a : list Val) (k : list (string * Val)) (computation : code Val)
    : M Val :=
  fun s =>
    let global_snapshot := snapshot (link_hooks (world s)) in
    let local_snapshot := snapshot (local_link_hooks (world s) node) in
    let record := {| link := node; forward_method := method_name;
                     args := a; kwargs := k; out := None |} in
    (for_each (fun h => call_forward_preprocess h record) global_snapshot ;;
     for_each (fun h => call_forward_preprocess h record) local_snapshot ;;
     R <- run computation ;;
     let record' := with_out record R in
     for_each (fun h => call_forward_postprocess h record') global_snapshot ;;
     for_each (fun h => call_forward_postprocess h record') local_snapshot ;;
     ret R) s.

(** Two hooks entered globally, then two hooks added to a node, in that
    order. *)
Definition register_in_order (Ga Gb La Lb : HookRef) (node : LinkRef)
    : M unit :=
  __enter__ Ga ;; __enter__ Gb ;; add_hook node La ;; add_hook node Lb.

(** ** Reading the log *)

(** The hook an entry of the log was a call on. *)
Definition receiver (e : event) : HookRef :=
  match e with
  | CallAdded h _ _ | CallDeleted h _ _
  | CallPreprocess h _ | CallPostprocess h _ => h
  end.

(** The calls a given hook received. *)
Definition received (h : HookRef) (evs : list event) : list event :=
  filter (fun e => Nat.eqb (receiver e) h) evs.



(** The hooks whose [forward_preprocess] was called, in call order. *)
Fixpoint preprocess_sequence (evs : list event) : list HookRef :=
  match evs with
  | [] => []
  | CallPreprocess h _ :: evs' => h :: preprocess_sequence evs'
  | _ :: evs' => preprocess_sequence evs'
  end.

(** The hooks whose [forward_postprocess] was called, in call order. *)
Fixpoint postprocess_sequence (evs : list event) : list HookRef :=
  match evs with
  | [] => []
  | CallPostprocess h _ :: evs' => h :: postprocess_sequence evs'
  | _ :: evs' => postprocess_sequence evs'
  end.

(** Client code that returns normally whatever the world. *)
Definition returns_normally {A} (c : code A) : Prop :=
  forall w, exists a w', c w = (Return a, w').

(** Client code that leaves the registries as it found them, whether it
    returns or raises. *)
Definition keeps_registries {A} (c : code A) : Prop :=
  forall w, link_hooks (snd (c w)) = link_hooks w /\
            local_link_hooks (snd (c w)) = local_link_hooks w.

End LinkHooks.

Arguments CallAdded {Val} h l seen.
Arguments CallDeleted {Val} h l seen.

(** ** A small program to run the definitions on

    Client state is a counter of callback invocations; forward values are
    numbers. *)
Module Demo.

Definition bump (w : World nat) : World nat :=
  {| link_hooks := link_hooks w;
     local_link_hooks := local_link_hooks w;
     user := S (user w) |}.

(** A hook that counts the calls it receives, as a timer hook would. *)
Definition counting (n : string) : LinkHook nat nat :=
  {| name := n;
     added := fun _ w => (Return tt, bump w);
     deleted := fun _ w => (Return tt, bump w);
     forward_preprocess := fun _ w => (Return tt, bump w);
     forward_postprocess := fun _ w => (Return tt, bump w) |}.

(** A hook whose [added] override raises. *)
Definition failing_added (n : string) : LinkHook nat nat :=
  {| name := n;
     added := fun _ w => (Raise (Exception "added failed"), w);
     deleted := @LinkHook_deleted nat;
     forward_preprocess := @LinkHook_forward_preprocess nat nat;
     forward_postprocess := @LinkHook_forward_postprocess nat nat |}.

(** Hooks 0 and 2 are two instances of the base class and share its name. *)
Definition hooks (h : HookRef) : LinkHook nat nat :=
  match h with
  | 0 => LinkHook_base nat nat
  | 1 => counting "TimerHook"
  | 2 => LinkHook_base nat nat
  | 3 => failing_added "Faulty"
  | 4 => counting "Ga"
  | 5 => counting "Gb"
  | 6 => counting "La"
  | _ => counting "Lb"
  end.

Definition w0 : World nat :=
  {| link_hooks := OrderedDict.empty HookRef;
     local_link_hooks := fun _ => OrderedDict.empty HookRef;
     user := 0 |}.

Definition s0 : State nat nat := {| world := w0; calls := [] |}.

(** The world with the given global registry. *)
Definition w_with (r : registry) : World nat :=
  {| link_hooks := r; local_link_hooks := fun _ => []; user := 0 |}.

Definition s_with (r : registry) : State nat nat :=
  {| world := w_with r; calls := [] |}.

(** The state [__enter__] leaves when the [added] callback of hook 3
    raises. *)
Definition s_faulty : State nat nat :=
  {| world := w_with [("Faulty", 3)];
     calls := [CallAdded 3 None [("Faulty", 3)]] |}.

(** A forward computation and a body of a [with] statement that fails. *)
Definition forward : code nat nat := fun w => (Return 42, w).

Definition failing_body (_ : HookRef) : M nat nat nat :=
  raise (Exception "body failed").

End Demo.

(** ** Client code that behaves *)
Section ClientCode.
Variable U : Type.
Variable Val : Type.

(** A callback that returns [None] and leaves the global registry as it
    found it. *)
Definition quiet (c : code U unit) : Prop :=
  forall w, exists w', c w = (Return tt, w') /\ link_hooks w' = link_hooks w.


(** Client code that leaves the global registry as it found it, whether it
    returns or raises. *)
Definition keeps_link_hooks {A} (c : code U A) : Prop :=
  forall w, link_hooks (snd (c w)) = link_hooks w.

(** Every hook of the registry is stored under its own name. *)
Definition names_agree (hooks : HookRef -> LinkHook U Val) (r : registry)
    : Prop :=
  forall k g, OrderedDict.get k r = Some g -> name (hooks g) = k.

End ClientCode.

(** ** A second small program: hooks that share a name, hooks that fail *)
Module Demo2.

(** A hook whose [deleted] override raises. *)
Definition failing_deleted (n : string) : LinkHook nat nat :=
  {| name := n;
     added := fun _ w => (Return tt, Demo.bump w);
     deleted := fun _ w => (Raise (Exception "deleted failed"), w);
     forward_preprocess := @LinkHook_forward_preprocess nat nat;
     forward_postprocess := @LinkHook_forward_postprocess nat nat |}.

(** Hooks 0 and 2 are two timers under one name. *)
Definition hooks (h : HookRef) : LinkHook nat nat :=
  match h with
  | 0 => Demo.counting "TimerHook"
  | 1 => failing_deleted "Stubborn"
  | 2 => Demo.counting "TimerHook"
  | 3 => Demo.failing_added "Faulty"
  | _ => Demo.counting "CupyMemoryProfileHook"
  end.

(** A body that runs a forward computation. *)
Definition forward_body (_ : HookRef) : M nat nat nat := run Demo.forward.

End Demo2.

(** ** A third small program: hooks that write down what they are asked

    Client state is the list of lines written so far, so the order in which
    callbacks run shows in the world itself. *)
Module Demo3.

Definition say (line : string) (w : World (list string))
    : World (list string) :=
  {| link_hooks := link_hooks w;
     local_link_hooks := local_link_hooks w;
     user := user w ++ [line] |}.

(** A hook that writes one line per callback. *)
Definition speaking (n : string) : LinkHook (list string) nat :=
  {| name := n;
     added := fun _ w => (Return tt, say ("added " ++ n)%string w);
     deleted := fun _ w => (Return tt, say ("deleted " ++ n)%string w);
     forward_preprocess := fun _ w => (Return tt, say ("pre " ++ n)%string w);
     forward_postprocess :=
       fun _ w => (Return tt, say ("post " ++ n)%string w) |}.

Definition hooks (h : HookRef) : LinkHook (list string) nat :=
  match h with
  | 0 => speaking "Ga"
  | 1 => speaking "Gb"
  | 2 => speaking "La"
  | _ => speaking "Lb"
  end.

(** A forward computation that writes a line too. *)
Definition forward : code (list string) nat :=
  fun w => (Return 42, say "forward" w).

Definition s0 : State (list string) nat :=
  {| world := {| link_hooks := OrderedDict.empty HookRef;
                 local_link_hooks := fun _ => OrderedDict.empty HookRef;
                 user := [] |};
     calls := [] |}.

End Demo3.

(** * Properties *)

(** ** The dictionary *)
Module OrderedDictFacts.
Import OrderedDict.
Section Facts.
Variable V : Type.
Implicit Types (k : string) (v : V) (d : t V).

Lemma get_set_same k v d : get k (set k v d) = Some v.
Proof.
  induction d as [|[k' v'] d IH]; simpl.
  - now rewrite String.eqb_refl.
  - destruct (String.eqb k k') eqn:E; simpl; rewrite ?String.eqb_refl, ?E; auto.
Qed.

Lemma get_set_other k k' v d : k <> k' -> get k' (set k v d) = get k' d.
Proof.
  intros Hne. induction d as [|[k1 v1] d IH]; simpl.
  - destruct (String.eqb_spec k' k); congruence.
  - destruct (String.eqb_spec k k1); simpl.
    + subst k1. destruct (String.eqb_spec k' k); congruence.
    + now rewrite IH.
Qed.

Lemma get_del_same k d : get k (del k d) = None.
Proof.
  induction d as [|[k' v'] d IH]; simpl; auto.
  destruct (String.eqb k k') eqn:E; simpl; rewrite ?E; auto.
Qed.

Lemma get_del_other k k' d : k <> k' -> get k' (del k d) = get k' d.
Proof.
  intros Hne. induction d as [|[k1 v1] d IH]; simpl; auto.
  destruct (String.eqb_spec k k1); simpl.
  - subst k1. destruct (String.eqb_spec k' k); congruence.
  - now rewrite IH.
Qed.

(** A new key goes to the end. *)
Lemma set_fresh k v d : get k d = None -> set k v d = d ++ [(k, v)].
Proof.
  induction d as [|[k' v'] d IH]; simpl; auto.
  destruct (String.eqb k k'); [discriminate|].
  intros H. now rewrite IH.
Qed.

Lemma values_set_fresh k v d :
  get k d = None -> values (set k v d) = values d ++ [v].
Proof.
  intros H. unfold values. rewrite set_fresh by exact H. rewrite map_app. reflexivity.
Qed.

Lemma contains_get k d :
  contains k d = match get k d with Some _ => true | None => false end.
Proof. reflexivity. Qed.

End Facts.
End OrderedDictFacts.

(** ** The context-manager protocol *)
Section Protocol.
Variable U : Type.
Variable Val : Type.
Variable hooks : HookRef -> LinkHook U Val.

Import OrderedDictFacts.

Local Abbreviation St := (State U Val).
Local Abbreviation reg s := (link_hooks (world s)).
Local Abbreviation name_of h := (name (hooks h)).

(** Unfold the monadic plumbing of the two methods. *)
Ltac unfold_protocol :=
  unfold __enter__, __exit__, with_statement, bind, ret, raise, contains,
    getitem, setitem, delitem, call_added, call_deleted, run, logged,
    OrderedDict.contains in *;
  simpl in *.

(** [__enter__] on a name that is free: the hook is stored, then the
    callback runs on the world that holds it. *)
Lemma enter_free (self : HookRef) (s : St) :
  OrderedDict.get (name_of self) (reg s) = None ->
  __enter__ hooks self s =
    bind (call_added hooks self None) (fun _ => ret self)
      {| world := with_link_hooks (OrderedDict.set (name_of self) self)
                    (world s);
         calls := calls s |}.
Proof. intros H. unfold_protocol. now rewrite H. Qed.

(** [__enter__] on a name that is taken raises before anything changes. *)
Lemma enter_taken (self g : HookRef) (s : St) :
  OrderedDict.get (name_of self) (reg s) = Some g ->
  __enter__ hooks self s = (Raise (already_exists (name_of self)), s).
Proof. intros H. unfold_protocol. now rewrite H. Qed.

(** [__exit__] on a name that is taken: the callback of the stored hook
    runs first, on the world as it is, and the deletion follows. *)
Lemma exit_taken (self stored : HookRef) (exc_info : option exn) (s : St) :
  OrderedDict.get (name_of self) (reg s) = Some stored ->
  __exit__ hooks self exc_info s =
    bind (run (deleted (hooks stored) None))
         (fun _ => delitem (name_of self))
      (logged (CallDeleted stored None (reg s)) s).
Proof. intros H. unfold_protocol. now rewrite H. Qed.

(** When the [deleted] callback of the stored hook raises, [__exit__]
    stops there: nothing is deleted by it. *)
Lemma exit_deleted_raises (self stored : HookRef) (exc_info : option exn)
    (s : St) (e : exn) (w' : World U) :
  OrderedDict.get (name_of self) (reg s) = Some stored ->
  deleted (hooks stored) None (world s) = (Raise e, w') ->
  __exit__ hooks self exc_info s =
    (Raise e,
     {| world := w';
        calls := calls s ++ [CallDeleted stored None (reg s)] |}).
Proof. intros H Hd. unfold_protocol. now rewrite H, Hd. Qed.

(** When it returns, the name is gone afterwards, whether the deletion
    found the entry or not. *)
Lemma exit_deleted_returns (self stored : HookRef) (exc_info : option exn)
    (s : St) (w' : World U) :
  OrderedDict.get (name_of self) (reg s) = Some stored ->
  deleted (hooks stored) None (world s) = (Return tt, w') ->
  OrderedDict.get (name_of self)
    (reg (snd (__exit__ hooks self exc_info s))) = None
  /\ calls (snd (__exit__ hooks self exc_info s)) =
       calls s ++ [CallDeleted stored None (reg s)]
  /\ (OrderedDict.get (name_of self) (link_hooks w') <> None ->
      __exit__ hooks self exc_info s =
        (Return tt,
         {| world := with_link_hooks (OrderedDict.del (name_of self)) w';
            calls := calls s ++ [CallDeleted stored None (reg s)] |})).
Proof.
  intros H Hd. unfold_protocol. rewrite H, Hd. simpl.
  destruct (OrderedDict.get (name_of self) (link_hooks w')) eqn:E; simpl.
  - rewrite get_del_same. repeat split; congruence.
  - rewrite E. repeat split; congruence.
Qed.

(** C1: entering with a hook whose name is already taken in the global
    registry fails at entry with the duplicate-name error; the state is
    left as it was, so the earlier hook is still the one registered under
    that name, the new hook is not stored and no callback was called. *)
Theorem enter_duplicate_name (self g : HookRef) (s : St) :
  OrderedDict.get (name_of self) (reg s) = Some g ->
  __enter__ hooks self s = (Raise (already_exists (name_of self)), s)
  /\ OrderedDict.get (name_of self)
       (reg (snd (__enter__ hooks self s))) = Some g
  /\ calls (snd (__enter__ hooks self s)) = calls s.
Proof.
  intros H.
  rewrite (enter_taken _ _ H). simpl. auto.
Qed.

(** C3: entering with a hook whose name is free stores the hook under its
    name at the end of the global registry, then calls its [added] callback
    with [None] on the world that already holds the entry, and returns the
    hook itself. *)
Theorem enter_registers (self : HookRef) (s : St) (w' : World U) :
  OrderedDict.get (name_of self) (reg s) = None ->
  added (hooks self) None
    (with_link_hooks (OrderedDict.set (name_of self) self) (world s))
    = (Return tt, w') ->
  let stored := OrderedDict.set (name_of self) self (reg s) in
  __enter__ hooks self s =
    (Return self,
     {| world := w'; calls := calls s ++ [CallAdded self None stored] |})
  /\ OrderedDict.get (name_of self) stored = Some self
  /\ stored = reg s ++ [(name_of self, self)].
Proof.
  intros H Ha. simpl. repeat split.
  - rewrite (enter_free _ _ H). unfold_protocol. now rewrite Ha.
  - apply get_set_same.
  - now apply set_fresh.
Qed.

(** C9: when the global registry has no entry under the hook's name,
    [__exit__] raises [KeyError] on the lookup and leaves the state as it
    was: the registry is unchanged and no callback was called. *)
Theorem exit_missing_name (self : HookRef) (exc_info : option exn) (s : St) :
  OrderedDict.get (name_of self) (reg s) = None ->
  __exit__ hooks self exc_info s = (Raise (KeyError (name_of self)), s)
  /\ reg (snd (__exit__ hooks self exc_info s)) = reg s
  /\ calls (snd (__exit__ hooks self exc_info s)) = calls s.
Proof.
  intros H.
  assert (E : __exit__ hooks self exc_info s
              = (Raise (KeyError (name_of self)), s)).
  { unfold_protocol. now rewrite H. }
  rewrite E. simpl. auto.
Qed.

(** C5: unregistering a name that is taken calls the [deleted] callback of
    the stored hook with [None] before the entry is removed: the callback
    runs on the world as [__exit__] found it, whose registry still holds the
    entry, and only what follows the callback deletes the name. *)
Theorem exit_calls_deleted_before_removal (self stored : HookRef)
    (exc_info : option exn) (s : St) :
  OrderedDict.get (name_of self) (reg s) = Some stored ->
  let during := logged (CallDeleted stored None (reg s)) s in
  OrderedDict.get (name_of self) (reg during) = Some stored
  /\ __exit__ hooks self exc_info s =
       bind (run (deleted (hooks stored) None))
            (fun _ => delitem (name_of self)) during
  /\ (forall w', deleted (hooks stored) None (world during) = (Return tt, w') ->
       link_hooks w' = reg s ->
       __exit__ hooks self exc_info s =
         (Return tt,
          {| world := with_link_hooks (OrderedDict.del (name_of self)) w';
             calls := calls during |})).
Proof.
  intros H during. split; [exact H|]. split; [now apply exit_taken|].
  intros w' Hd Hreg.
  destruct (exit_deleted_returns self exc_info s H Hd) as (_ & _ & E).
  apply E. simpl in Hreg. rewrite Hreg, H. discriminate.
Qed.

(** C10: [__exit__] calls [deleted] on whichever hook the registry holds
    under [self.name].  When that is another instance [g], it is the
    [deleted] callback of [g] that runs, with [None], on the world as
    [__exit__] found it: when it returns, the world afterwards is the world
    that callback left, less the name, and the name is absent from the
    registry; when it raises, [__exit__] raises with it and the world is
    the world that callback left.  [self] receives no call. *)
Theorem exit_dispatches_to_stored (self g : HookRef) (exc_info : option exn)
    (s : St) (r : result unit) (w' : World U) :
  OrderedDict.get (name_of self) (reg s) = Some g ->
  g <> self ->
  deleted (hooks g) None (world s) = (r, w') ->
  let after := snd (__exit__ hooks self exc_info s) in
  calls after = calls s ++ [CallDeleted g None (reg s)]
  /\ received self (calls after) = received self (calls s)
  /\ match r with
     | Return _ =>
         OrderedDict.get (name_of self) (reg after) = None
         /\ world after =
              (if OrderedDict.contains (name_of self) (link_hooks w')
               then with_link_hooks (OrderedDict.del (name_of self)) w'
               else w')
     | Raise e =>
         __exit__ hooks self exc_info s =
           (Raise e,
            {| world := w';
               calls := calls s ++ [CallDeleted g None (reg s)] |})
     end.
Proof.
  intros H Hne Hd after.
  assert (Hc : calls after = calls s ++ [CallDeleted g None (reg s)]).
  { subst after. rewrite (exit_taken _ exc_info _ H).
    unfold bind, run, logged, delitem. simpl. rewrite Hd.
    destruct r as [[]|e]; simpl; auto.
    destruct (OrderedDict.contains _ _); reflexivity. }
  split; [exact Hc|]. split.
  - rewrite Hc. unfold received. rewrite filter_app. simpl.
    destruct (Nat.eqb_spec g self); [contradiction|]. now rewrite app_nil_r.
  - destruct r as [[]|e].
    + split.
      * subst after. now destruct (exit_deleted_returns self exc_info s H Hd).
      * subst after. rewrite (exit_taken _ exc_info _ H).
        unfold bind, run, logged, delitem. simpl. rewrite Hd.
        now destruct (OrderedDict.contains _ _).
    + now apply exit_deleted_raises.
Qed.


(** [__exit__] with a [deleted] callback that returns and leaves the
    registry alone deletes the name of [self] and nothing else. *)
Lemma exit_deletes_own_name (self : HookRef) (exc_info : option exn)
    (s : St) (w' : World U) :
  OrderedDict.get (name_of self) (reg s) = Some self ->
  deleted (hooks self) None (world s) = (Return tt, w') ->
  link_hooks w' = reg s ->
  fst (__exit__ hooks self exc_info s) = Return tt
  /\ reg (snd (__exit__ hooks self exc_info s)) =
       OrderedDict.del (name_of self) (reg s).
Proof.
  intros H Hd Hreg.
  destruct (exit_deleted_returns self exc_info s H Hd) as (_ & _ & E).
  rewrite E by (rewrite Hreg, H; discriminate).
  simpl. now rewrite Hreg.
Qed.

(** C6: with two hooks of distinct names both in the global registry,
    leaving the context of either one (its [deleted] callback returning
    without touching the registry) removes that hook's name only: the entry
    of the other hook is still there, bound to the same hook, whichever of
    the two is left first. *)
Theorem exit_leaves_other_hook (h1 h2 : HookRef) (exc1 exc2 : option exn)
    (s : St) (w1 w2 : World U) :
  name_of h1 <> name_of h2 ->
  OrderedDict.get (name_of h1) (reg s) = Some h1 ->
  OrderedDict.get (name_of h2) (reg s) = Some h2 ->
  deleted (hooks h1) None (world s) = (Return tt, w1) ->
  link_hooks w1 = reg s ->
  deleted (hooks h2) None (world s) = (Return tt, w2) ->
  link_hooks w2 = reg s ->
  let after1 := snd (__exit__ hooks h1 exc1 s) in
  let after2 := snd (__exit__ hooks h2 exc2 s) in
  (OrderedDict.get (name_of h1) (reg after1) = None
   /\ OrderedDict.get (name_of h2) (reg after1) = Some h2
   /\ forall k, k <> name_of h1 ->
        OrderedDict.get k (reg after1) = OrderedDict.get k (reg s))
  /\ (OrderedDict.get (name_of h2) (reg after2) = None
      /\ OrderedDict.get (name_of h1) (reg after2) = Some h1
      /\ forall k, k <> name_of h2 ->
           OrderedDict.get k (reg after2) = OrderedDict.get k (reg s)).
Proof.
  intros Hne H1 H2 Hd1 Hr1 Hd2 Hr2 after1 after2.
  destruct (@exit_deletes_own_name h1 exc1 s w1 H1 Hd1 Hr1) as [_ E1].
  destruct (@exit_deletes_own_name h2 exc2 s w2 H2 Hd2 Hr2) as [_ E2].
  subst after1 after2. rewrite E1, E2. repeat split.
  - apply get_del_same.
  - rewrite get_del_other; auto.
  - intros k Hk. apply get_del_other; auto.
  - apply get_del_same.
  - rewrite get_del_other; auto.
  - intros k Hk. apply get_del_other; auto.
Qed.

(** C4, as the code has it: [__enter__] raises in two ways.  On a name
    that is taken it raises the duplicate-name error and the state is left
    as it was.  On a free name the only error is the one of the hook's
    [added] callback, which ran after the hook had been stored; the entry
    is not taken back, so with a callback that left the registry alone the
    hook is registered under its name when the error reaches the caller. *)
Theorem enter_raise_cases (self : HookRef) (s s' : St) (e : exn) :
  __enter__ hooks self s = (Raise e, s') ->
  (exists g, OrderedDict.get (name_of self) (reg s) = Some g
             /\ e = already_exists (name_of self) /\ s' = s)
  \/ (OrderedDict.get (name_of self) (reg s) = None
      /\ added (hooks self) None
           (with_link_hooks (OrderedDict.set (name_of self) self) (world s))
         = (Raise e, world s')
      /\ calls s' =
           calls s ++ [CallAdded self None
                         (OrderedDict.set (name_of self) self (reg s))]
      /\ (reg s' = OrderedDict.set (name_of self) self (reg s) ->
          OrderedDict.get (name_of self) (reg s') = Some self)).
Proof.
  intros H.
  destruct (OrderedDict.get (name_of self) (reg s)) as [g|] eqn:E.
  - left. exists g. rewrite (enter_taken _ _ E) in H. inversion H. auto.
  - right. rewrite (enter_free _ _ E) in H. unfold_protocol.
    destruct (added (hooks self) None _) as [[[]|e'] w'] eqn:Ha;
      inversion H; subst; simpl.
    repeat split; auto.
    intros ->. apply get_set_same.
Qed.

(** C8: the four methods as the base class defines them do nothing: each
    returns [None] and hands back the world it was given, whatever its
    argument and whatever the world. *)
Theorem default_methods_do_nothing (l : option LinkRef) (r : CallRecord Val)
    (w : World U) :
  added (LinkHook_base U Val) l w = (Return tt, w)
  /\ deleted (LinkHook_base U Val) l w = (Return tt, w)
  /\ forward_preprocess (LinkHook_base U Val) r w = (Return tt, w)
  /\ forward_postprocess (LinkHook_base U Val) r w = (Return tt, w).
Proof. repeat split. Qed.

End Protocol.

(** ** The dispatcher *)
Section Dispatcher.
Variable U : Type.
Variable Val : Type.
Variable hooks : HookRef -> LinkHook U Val.

Import OrderedDictFacts.

Local Abbreviation St := (State U Val).
Local Abbreviation name_of h := (name (hooks h)).

(** A successful [__enter__] whose callback keeps the registries appends
    the hook to the global registry and leaves the node-local ones alone. *)
Lemma enter_appends (h x : HookRef) (s s' : St) :
  keeps_registries (added (hooks h) None) ->
  __enter__ hooks h s = (Return x, s') ->
  snapshot (link_hooks (world s')) = snapshot (link_hooks (world s)) ++ [h]
  /\ local_link_hooks (world s') = local_link_hooks (world s).
Proof.
  intros Hk H. unfold __enter__, bind, contains, raise in H. simpl in H.
  unfold OrderedDict.contains in H.
  destruct (OrderedDict.get (name_of h) (link_hooks (world s))) eqn:E;
    [discriminate|].
  unfold call_added, run, logged, setitem, ret in H. simpl in H.
  destruct (Hk (with_link_hooks (OrderedDict.set (name_of h) h) (world s)))
    as [Hg Hl].
  destruct (added (hooks h) None _) as [[[]|e] w'] eqn:Ha;
    inversion H; subst; simpl in *.
  rewrite Hg, Hl. split; [|reflexivity].
  unfold snapshot. now apply values_set_fresh.
Qed.

(** The same for [add_hook] and the registry of the node. *)
Lemma add_hook_appends (node : LinkRef) (h : HookRef) (s s' : St) :
  keeps_registries (added (hooks h) (Some node)) ->
  add_hook hooks node h s = (Return tt, s') ->
  snapshot (local_link_hooks (world s') node) =
    snapshot (local_link_hooks (world s) node) ++ [h]
  /\ link_hooks (world s') = link_hooks (world s).
Proof.
  intros Hk H. unfold add_hook, raise in H.
  unfold OrderedDict.contains in H.
  destruct (OrderedDict.get (name_of h) (local_link_hooks (world s) node))
    eqn:E; [discriminate|].
  unfold call_added, run, logged in H. simpl in H.
  destruct (Hk (with_local_link_hooks node
                  (OrderedDict.set (name_of h) h) (world s))) as [Hg Hl].
  destruct (added (hooks h) (Some node) _) as [[[]|e] w'] eqn:Ha;
    inversion H; subst; simpl in *.
  rewrite Hg, Hl. simpl. rewrite Nat.eqb_refl. split; [|reflexivity].
  unfold snapshot. now apply values_set_fresh.
Qed.

Lemma preprocess_sequence_app (l1 l2 : list (event Val)) :
  preprocess_sequence (l1 ++ l2) =
    preprocess_sequence l1 ++ preprocess_sequence l2.
Proof.
  induction l1 as [|[] l1 IH]; simpl; auto. now rewrite IH.
Qed.

Lemma postprocess_sequence_app (l1 l2 : list (event Val)) :
  postprocess_sequence (l1 ++ l2) =
    postprocess_sequence l1 ++ postprocess_sequence l2.
Proof.
  induction l1 as [|[] l1 IH]; simpl; auto. now rewrite IH.
Qed.

Lemma sequences_of_preprocess_calls (r : CallRecord Val) (hs : list HookRef) :
  preprocess_sequence (map (fun h => CallPreprocess h r) hs) = hs
  /\ postprocess_sequence (map (fun h => CallPreprocess h r) hs) = [].
Proof. induction hs as [|h hs [IH1 IH2]]; simpl; split; congruence. Qed.

Lemma sequences_of_postprocess_calls (r : CallRecord Val) (hs : list HookRef) :
  postprocess_sequence (map (fun h => CallPostprocess h r) hs) = hs
  /\ preprocess_sequence (map (fun h => CallPostprocess h r) hs) = [].
Proof. induction hs as [|h hs [IH1 IH2]]; simpl; split; congruence. Qed.

(** A phase over a snapshot whose callbacks all return calls them one by
    one in snapshot order. *)
Lemma for_each_preprocess (r : CallRecord Val) (hs : list HookRef) :
  (forall h, In h hs -> returns_normally (forward_preprocess (hooks h) r)) ->
  forall s : St, exists s',
    for_each (fun h => call_forward_preprocess hooks h r) hs s
      = (Return tt, s')
    /\ calls s' = calls s ++ map (fun h => CallPreprocess h r) hs.
Proof.
  induction hs as [|h hs IH]; intros Hn s; simpl.
  - exists s. unfold ret. now rewrite app_nil_r.
  - destruct (Hn h (or_introl eq_refl) (world s)) as ([] & w' & Hw).
    unfold bind at 1. unfold call_forward_preprocess, run, logged. simpl.
    rewrite Hw.
    destruct (IH (fun h' Hin => Hn h' (or_intror Hin))
                {| world := w'; calls := calls s ++ [CallPreprocess h r] |})
      as (s' & E & C).
    exists s'. split; [exact E|]. rewrite C. simpl. now rewrite <- app_assoc.
Qed.

Lemma for_each_postprocess (r : CallRecord Val) (hs : list HookRef) :
  (forall h, In h hs -> returns_normally (forward_postprocess (hooks h) r)) ->
  forall s : St, exists s',
    for_each (fun h => call_forward_postprocess hooks h r) hs s
      = (Return tt, s')
    /\ calls s' = calls s ++ map (fun h => CallPostprocess h r) hs.
Proof.
  induction hs as [|h hs IH]; intros Hn s; simpl.
  - exists s. unfold ret. now rewrite app_nil_r.
  - destruct (Hn h (or_introl eq_refl) (world s)) as ([] & w' & Hw).
    unfold bind at 1. unfold call_forward_postprocess, run, logged. simpl.
    rewrite Hw.
    destruct (IH (fun h' Hin => Hn h' (or_intror Hin))
                {| world := w'; calls := calls s ++ [CallPostprocess h r] |})
      as (s' & E & C).
    exists s'. split; [exact E|]. rewrite C. simpl. now rewrite <- app_assoc.
Qed.

(** One invocation whose callbacks and computation return: the callbacks
    are called on the hooks of the two snapshots taken at the start, global
    ones first, every [forward_preprocess] before the computation and every
    [forward_postprocess] after it. *)
Lemma invoke_calls_snapshots (node : LinkRef) (m : string) (a : list Val)
    (k : list (string * Val)) (computation : code U Val) (s : St) :
  let hs := snapshot (link_hooks (world s))
            ++ snapshot (local_link_hooks (world s) node) in
  let record := {| link := node; forward_method := m;
                   args := a; kwargs := k; out := None |} in
  (forall h r, In h hs -> returns_normally (forward_preprocess (hooks h) r)) ->
  (forall h r, In h hs -> returns_normally (forward_postprocess (hooks h) r)) ->
  returns_normally computation ->
  exists R s',
    invoke_with_hooks hooks node m a k computation s = (Return R, s')
    /\ calls s' =
         calls s ++ map (fun h => CallPreprocess h record) hs
                 ++ map (fun h => CallPostprocess h (with_out record R)) hs.
Proof.
  intros hs record Hpre Hpost Hc. subst hs.
  set (gs := snapshot (link_hooks (world s))) in *.
  set (ls := snapshot (local_link_hooks (world s) node)) in *.
  unfold invoke_with_hooks. fold gs ls record.
  destruct (for_each_preprocess record gs
              (fun h Hin => Hpre h record (in_or_app _ _ _ (or_introl Hin))) s)
    as (s1 & E1 & C1).
  destruct (for_each_preprocess record ls
              (fun h Hin => Hpre h record (in_or_app _ _ _ (or_intror Hin))) s1)
    as (s2 & E2 & C2).
  destruct (Hc (world s2)) as (R & w3 & E3).
  set (s3 := {| world := w3; calls := calls s2 |}).
  destruct (for_each_postprocess (with_out record R) gs
              (fun h Hin => Hpost h _ (in_or_app _ _ _ (or_introl Hin))) s3)
    as (s4 & E4 & C4).
  destruct (for_each_postprocess (with_out record R) ls
              (fun h Hin => Hpost h _ (in_or_app _ _ _ (or_intror Hin))) s4)
    as (s5 & E5 & C5).
  exists R, s5. split.
  - unfold bind at 1. rewrite E1.
    unfold bind at 1. rewrite E2.
    unfold bind at 1. unfold run at 1. rewrite E3. fold s3.
    unfold bind at 1. rewrite E4.
    unfold bind at 1. rewrite E5. reflexivity.
  - rewrite C5, C4. simpl. rewrite C2, C1.
    rewrite !map_app, <- !app_assoc. reflexivity.
Qed.

(** C7: with global hooks [Ga], [Gb] entered in that order and local hooks
    [La], [Lb] added in that order to node [N], starting from empty
    registries, an invocation of [N] runs the [forward_preprocess]
    callbacks of [Ga], [Gb], [La], [Lb] in that order, each on the world
    the one before left, then the computation, then the
    [forward_postprocess] callbacks of [Ga], [Gb], [La], [Lb] in that
    order.  The world after the invocation is the world the last of them
    left, the result is the result of the computation, and the calls are
    logged in the same order.  The callbacks and the computation are taken
    to return, and the [added] callbacks to keep the registries. *)
Theorem dispatch_order (Ga Gb La Lb : HookRef) (N : LinkRef) (m : string)
    (a : list Val) (k : list (string * Val)) (computation : code U Val)
    (s0 s : St) (R : Val) (w1 w2 w3 w4 w5 w6 w7 w8 w9 : World U) :
  link_hooks (world s0) = [] ->
  local_link_hooks (world s0) N = [] ->
  (forall h l, In h [Ga; Gb; La; Lb] -> keeps_registries (added (hooks h) l)) ->
  register_in_order hooks Ga Gb La Lb N s0 = (Return tt, s) ->
  let record := {| link := N; forward_method := m;
                   args := a; kwargs := k; out := None |} in
  forward_preprocess (hooks Ga) record (world s) = (Return tt, w1) ->
  forward_preprocess (hooks Gb) record w1 = (Return tt, w2) ->
  forward_preprocess (hooks La) record w2 = (Return tt, w3) ->
  forward_preprocess (hooks Lb) record w3 = (Return tt, w4) ->
  computation w4 = (Return R, w5) ->
  forward_postprocess (hooks Ga) (with_out record R) w5 = (Return tt, w6) ->
  forward_postprocess (hooks Gb) (with_out record R) w6 = (Return tt, w7) ->
  forward_postprocess (hooks La) (with_out record R) w7 = (Return tt, w8) ->
  forward_postprocess (hooks Lb) (with_out record R) w8 = (Return tt, w9) ->
  let s' := {| world := w9;
               calls :=
                 calls s
                 ++ [CallPreprocess Ga record; CallPreprocess Gb record;
                     CallPreprocess La record; CallPreprocess Lb record]
                 ++ [CallPostprocess Ga (with_out record R);
                     CallPostprocess Gb (with_out record R);
                     CallPostprocess La (with_out record R);
                     CallPostprocess Lb (with_out record R)] |} in
  invoke_with_hooks hooks N m a k computation s = (Return R, s')
  /\ preprocess_sequence (calls s') =
       preprocess_sequence (calls s) ++ [Ga; Gb; La; Lb]
  /\ postprocess_sequence (calls s') =
       postprocess_sequence (calls s) ++ [Ga; Gb; La; Lb].
Proof.
  intros Hg0 Hl0 Hk Hrun record P1 P2 P3 P4 Hc Q1 Q2 Q3 Q4 s'.
  assert (Hsnap : snapshot (link_hooks (world s)) = [Ga; Gb]
                  /\ snapshot (local_link_hooks (world s) N) = [La; Lb]).
  { unfold register_in_order in Hrun. unfold bind at 1 in Hrun.
    destruct (__enter__ hooks Ga s0) as [[x1|e] s1] eqn:E1; [|discriminate].
    unfold bind at 1 in Hrun.
    destruct (__enter__ hooks Gb s1) as [[x2|e] s2] eqn:E2; [|discriminate].
    unfold bind at 1 in Hrun.
    destruct (add_hook hooks N La s2) as [[[]|e] s3] eqn:E3; [|discriminate].
    destruct (@enter_appends Ga x1 s0 s1 (Hk Ga None (or_introl eq_refl)) E1)
      as [G1 L1].
    destruct (@enter_appends Gb x2 s1 s2
                (Hk Gb None (or_intror (or_introl eq_refl))) E2) as [G2 L2].
    destruct (@add_hook_appends N La s2 s3
                (Hk La (Some N) (or_intror (or_intror (or_introl eq_refl))))
                E3) as [L3 G3].
    destruct (@add_hook_appends N Lb s3 s
                (Hk Lb (Some N)
                   (or_intror (or_intror (or_intror (or_introl eq_refl)))))
                Hrun) as [L4 G4].
    rewrite G4, G3, G2, G1, Hg0. rewrite L4, L3, L2, L1, Hl0. auto. }
  destruct Hsnap as [Hgs Hls].
  split.
  - unfold invoke_with_hooks. rewrite Hgs, Hls. fold record.
    unfold for_each, bind, call_forward_preprocess, call_forward_postprocess,
      run, logged, ret. simpl.
    rewrite P1. simpl. rewrite P2. simpl. rewrite P3. simpl. rewrite P4.
    simpl. rewrite Hc. simpl. fold record.
    rewrite Q1. simpl. rewrite Q2. simpl. rewrite Q3. simpl. rewrite Q4.
    simpl. subst s'. rewrite <- !app_assoc. reflexivity.
  - subst s'. simpl.
    rewrite !preprocess_sequence_app, !postprocess_sequence_app.
    simpl. rewrite ?app_nil_r. auto.
Qed.

End Dispatcher.

(** ** The properties at work on the small program *)
Section Instances.

Import Demo.

(** A second instance of the base class entered while the first holds the
    name. *)
Lemma enter_duplicate_name_witness :
  OrderedDict.get (name (hooks 2)) (link_hooks (world (s_with [("LinkHook", 0)])))
    = Some 0
  /\ __enter__ hooks 2 (s_with [("LinkHook", 0)])
     = (Raise (KeyError "hook LinkHook already exists"),
        s_with [("LinkHook", 0)]).
Proof.
  split; [reflexivity|].
  exact (proj1 (@enter_duplicate_name nat nat hooks 2 0
                  (s_with [("LinkHook", 0)]) eq_refl)).
Defined.

(** The counting hook entered on empty registries. *)
Lemma enter_registers_witness :
  OrderedDict.get (name (hooks 1)) (link_hooks (world s0)) = None
  /\ __enter__ hooks 1 s0
     = (Return 1,
        {| world := bump (w_with [("TimerHook", 1)]);
           calls := [CallAdded 1 None [("TimerHook", 1)]] |}).
Proof.
  split; [reflexivity|].
  exact (proj1 (@enter_registers nat nat hooks 1 s0
                  (bump (w_with [("TimerHook", 1)])) eq_refl eq_refl)).
Defined.

(** Leaving a context whose hook is not in the registry. *)
Lemma exit_missing_name_witness :
  OrderedDict.get (name (hooks 0)) (link_hooks (world s0)) = None
  /\ __exit__ hooks 0 None s0 = (Raise (KeyError "LinkHook"), s0).
Proof.
  split; [reflexivity|].
  exact (proj1 (@exit_missing_name nat nat hooks 0 None s0 eq_refl)).
Defined.

(** Leaving the context of the counting hook: its callback saw the entry. *)
Lemma exit_calls_deleted_before_removal_witness :
  OrderedDict.get (name (hooks 1))
    (link_hooks (world (s_with [("TimerHook", 1)]))) = Some 1
  /\ __exit__ hooks 1 None (s_with [("TimerHook", 1)])
     = (Return tt,
        {| world := bump (w_with []);
           calls := [CallDeleted 1 None [("TimerHook", 1)]] |}).
Proof.
  split; [reflexivity|].
  exact (proj2 (proj2 (@exit_calls_deleted_before_removal nat nat hooks 1 1
                         None (s_with [("TimerHook", 1)]) eq_refl))
           (bump (w_with [("TimerHook", 1)])) eq_refl eq_refl).
Defined.

(** Timer 0 leaves while timer 2 holds the name they share: the count of
    callbacks run goes up by the one call on timer 2. *)
Lemma exit_dispatches_to_stored_witness :
  OrderedDict.get (name (Demo2.hooks 0))
    (link_hooks (world (s_with [("TimerHook", 2)]))) = Some 2
  /\ __exit__ Demo2.hooks 0 None (s_with [("TimerHook", 2)])
     = (Return tt,
        {| world := bump (w_with []);
           calls := [CallDeleted 2 None [("TimerHook", 2)]] |})
  /\ received 0 (calls (snd (__exit__ Demo2.hooks 0 None
                               (s_with [("TimerHook", 2)])))) = []
  /\ world (snd (__exit__ Demo2.hooks 0 None (s_with [("TimerHook", 2)])))
     = bump (w_with []).
Proof.
  split; [reflexivity|]. split; [reflexivity|].
  assert (Hne : 2 <> 0) by discriminate.
  destruct (@exit_dispatches_to_stored nat nat Demo2.hooks 0 2 None
              (s_with [("TimerHook", 2)]) (Return tt)
              (bump (w_with [("TimerHook", 2)])) eq_refl Hne eq_refl)
    as (_ & R & _ & W).
  split; [exact R | exact W].
Defined.



(** Two hooks registered, either one leaving first. *)
Lemma exit_leaves_other_hook_witness :
  OrderedDict.get "TimerHook"
    (link_hooks (world (snd (__exit__ hooks 0 None
       (s_with [("LinkHook", 0); ("TimerHook", 1)]))))) = Some 1
  /\ OrderedDict.get "LinkHook"
       (link_hooks (world (snd (__exit__ hooks 1 None
          (s_with [("LinkHook", 0); ("TimerHook", 1)]))))) = Some 0.
Proof.
  assert (Hne : name (hooks 0) <> name (hooks 1)) by discriminate.
  destruct (@exit_leaves_other_hook nat nat hooks 0 1 None None
              (s_with [("LinkHook", 0); ("TimerHook", 1)])
              (w_with [("LinkHook", 0); ("TimerHook", 1)])
              (bump (w_with [("LinkHook", 0); ("TimerHook", 1)]))
              Hne eq_refl eq_refl eq_refl eq_refl eq_refl eq_refl)
    as ((_ & A & _) & (_ & B & _)).
  split; [exact A | exact B].
Defined.

(** Entering with the hook whose [added] callback raises. *)
Lemma enter_raise_cases_witness :
  __enter__ hooks 3 s0 = (Raise (Exception "added failed"), s_faulty)
  /\ ((exists g, OrderedDict.get (name (hooks 3)) (link_hooks (world s0))
                  = Some g
                /\ Exception "added failed" = already_exists (name (hooks 3))
                /\ s_faulty = s0)
      \/ (OrderedDict.get (name (hooks 3)) (link_hooks (world s0)) = None
          /\ added (hooks 3) None
               (with_link_hooks (OrderedDict.set (name (hooks 3)) 3) (world s0))
             = (Raise (Exception "added failed"), world s_faulty)
          /\ calls s_faulty =
               calls s0 ++ [CallAdded 3 None
                              (OrderedDict.set (name (hooks 3)) 3
                                 (link_hooks (world s0)))]
          /\ (link_hooks (world s_faulty)
                = OrderedDict.set (name (hooks 3)) 3 (link_hooks (world s0)) ->
              OrderedDict.get (name (hooks 3)) (link_hooks (world s_faulty))
                = Some 3))).
Proof.
  split; [reflexivity|].
  exact (@enter_raise_cases nat nat hooks 3 s0 s_faulty
           (Exception "added failed") eq_refl).
Defined.

(** C4 fails as stated: the [added] callback of hook 3 raises, [__enter__]
    raises with it, and the registry holds hook 3 under its name. *)
Lemma enter_not_atomic :
  __enter__ hooks 3 s0 = (Raise (Exception "added failed"), s_faulty)
  /\ OrderedDict.get (name (hooks 3)) (link_hooks (world s_faulty)) = Some 3
  /\ ~ (forall e s', __enter__ hooks 3 s0 = (Raise e, s') ->
         OrderedDict.get (name (hooks 3)) (link_hooks (world s')) = None).
Proof.
  split; [reflexivity|]. split; [reflexivity|].
  intros H. specialize (H (Exception "added failed") s_faulty eq_refl).
  discriminate H.
Qed.

(** The [added] callbacks of the speaking hooks keep the registries. *)
Lemma speaking_hooks_keep (h : HookRef) (l : option LinkRef) :
  In h [0; 1; 2; 3] -> keeps_registries (added (Demo3.hooks h) l).
Proof.
  intros [<-|[<-|[<-|[<-|[]]]]] w; split; reflexivity.
Qed.

(** Hooks Ga and Gb entered, hooks La and Lb added to node 0, node 0
    invoked: the lines the hooks and the computation wrote, in order. *)
Lemma dispatch_order_witness :
  fst (invoke_with_hooks Demo3.hooks 0 "forward" [1] [] Demo3.forward
         (snd (register_in_order Demo3.hooks 0 1 2 3 0 Demo3.s0)))
    = Return 42
  /\ user (world (snd (invoke_with_hooks Demo3.hooks 0 "forward" [1] []
                         Demo3.forward
                         (snd (register_in_order Demo3.hooks 0 1 2 3 0
                                 Demo3.s0)))))
     = ["added Ga"; "added Gb"; "added La"; "added Lb";
        "pre Ga"; "pre Gb"; "pre La"; "pre Lb";
        "forward";
        "post Ga"; "post Gb"; "post La"; "post Lb"]
  /\ preprocess_sequence
       (calls (snd (invoke_with_hooks Demo3.hooks 0 "forward" [1] []
                      Demo3.forward
                      (snd (register_in_order Demo3.hooks 0 1 2 3 0
                              Demo3.s0)))))
     = [0; 1; 2; 3]
  /\ postprocess_sequence
       (calls (snd (invoke_with_hooks Demo3.hooks 0 "forward" [1] []
                      Demo3.forward
                      (snd (register_in_order Demo3.hooks 0 1 2 3 0
                              Demo3.s0)))))
     = [0; 1; 2; 3].
Proof.
  destruct (@dispatch_order (list string) nat Demo3.hooks 0 1 2 3 0
              "forward" [1] [] Demo3.forward Demo3.s0
              (snd (register_in_order Demo3.hooks 0 1 2 3 0 Demo3.s0))
              42 _ _ _ _ _ _ _ _ _
              eq_refl eq_refl
              (fun h l Hin => @speaking_hooks_keep h l Hin)
              eq_refl
              eq_refl eq_refl eq_refl eq_refl eq_refl
              eq_refl eq_refl eq_refl eq_refl) as (E & P & Q).
  rewrite E. simpl. repeat split.
Defined.

End Instances.

(** ** More on the dictionary *)
Module OrderedDictMore.
Import OrderedDict.
Section Facts.
Variable V : Type.
Implicit Types (k : string) (v : V) (d : t V).

(** Deleting a key that is not there changes nothing. *)
Lemma del_absent k d : get k d = None -> del k d = d.
Proof.
  induction d as [|[k' v'] d IH]; simpl; auto.
  destruct (String.eqb k k'); simpl; [discriminate|].
  intros H. now rewrite IH.
Qed.

(** Storing under a new key and deleting it again gives the dictionary
    back, order included. *)
Lemma del_set_fresh k v d : get k d = None -> del k (set k v d) = d.
Proof.
  intros H. rewrite OrderedDictFacts.set_fresh by exact H.
  unfold del. rewrite filter_app. simpl. rewrite String.eqb_refl. simpl.
  rewrite app_nil_r. now apply del_absent.
Qed.

Lemma del_comm k k' d : del k (del k' d) = del k' (del k d).
Proof.
  unfold del. induction d as [|[k1 v1] d IH]; simpl; auto.
  destruct (String.eqb k' k1) eqn:E1, (String.eqb k k1) eqn:E2; simpl;
    rewrite ?E1, ?E2; simpl; now rewrite ?IH.
Qed.

(** What is found after a deletion was there before. *)
Lemma get_del_some k k' v d : get k (del k' d) = Some v -> get k d = Some v.
Proof.
  destruct (String.eqb_spec k' k) as [->|Hne].
  - now rewrite OrderedDictFacts.get_del_same.
  - now rewrite OrderedDictFacts.get_del_other.
Qed.

End Facts.
End OrderedDictMore.

(** ** How the two methods compose *)
Section Composition.
Variable U : Type.
Variable Val : Type.
Variable hooks : HookRef -> LinkHook U Val.

Import OrderedDictFacts OrderedDictMore.

Local Abbreviation St := (State U Val).
Local Abbreviation reg s := (link_hooks (world s)).
Local Abbreviation name_of h := (name (hooks h)).

(** [__enter__] on a free name with a quiet [added] callback. *)
Lemma enter_quiet (self : HookRef) (s : St) :
  OrderedDict.get (name_of self) (reg s) = None ->
  quiet (added (hooks self) None) ->
  exists w',
    __enter__ hooks self s =
      (Return self,
       {| world := w';
          calls := calls s ++ [CallAdded self None
                                 (reg s ++ [(name_of self, self)])] |})
    /\ link_hooks w' = reg s ++ [(name_of self, self)].
Proof.
  intros H Hq.
  destruct (Hq (with_link_hooks (OrderedDict.set (name_of self) self)
                  (world s))) as (w' & Ha & Hr).
  exists w'. simpl in Hr. rewrite set_fresh in Hr by exact H.
  split; [|exact Hr].
  unfold __enter__, bind, contains, OrderedDict.contains, setitem,
    call_added, run, logged, ret. simpl.
  rewrite H. simpl. rewrite Ha. rewrite set_fresh by exact H. reflexivity.
Qed.

(** [__exit__] on a taken name with a quiet [deleted] callback of the
    stored hook. *)
Lemma exit_quiet (self stored : HookRef) (exc_info : option exn) (s : St) :
  OrderedDict.get (name_of self) (reg s) = Some stored ->
  quiet (deleted (hooks stored) None) ->
  exists w',
    __exit__ hooks self exc_info s =
      (Return tt,
       {| world := w';
          calls := calls s ++ [CallDeleted stored None (reg s)] |})
    /\ link_hooks w' = OrderedDict.del (name_of self) (reg s).
Proof.
  intros H Hq. destruct (Hq (world s)) as (w1 & Hd & Hr).
  exists (with_link_hooks (OrderedDict.del (name_of self)) w1).
  split; [|simpl; now rewrite Hr].
  unfold __exit__, bind, getitem, call_deleted, run, logged, delitem,
    OrderedDict.contains. simpl.
  rewrite H. rewrite Hd. simpl. rewrite Hr, H. reflexivity.
Qed.

(** A [with] statement whose [__enter__] went through: what is left is the
    body, then [__exit__]. *)
Lemma with_statement_entered (A : Type) (h : HookRef)
    (body : HookRef -> M U Val A) (s s_in : St) :
  __enter__ hooks h s = (Return h, s_in) ->
  with_statement hooks h body s =
    match body h s_in with
    | (Return a, s2) =>
        match __exit__ hooks h None s2 with
        | (Return _, s3) => (Return a, s3)
        | (Raise e', s3) => (Raise e', s3)
        end
    | (Raise e, s2) =>
        match __exit__ hooks h (Some e) s2 with
        | (Return _, s3) => (Raise e, s3)
        | (Raise e', s3) => (Raise e', s3)
        end
    end.
Proof. intros E. unfold with_statement. now rewrite E. Qed.

Lemma get_appended (k : string) (v : HookRef) (d : registry) :
  OrderedDict.get k d = None -> OrderedDict.get k (d ++ [(k, v)]) = Some v.
Proof.
  intros H. rewrite <- set_fresh by exact H. apply get_set_same.
Qed.

Lemma del_appended (k : string) (v : HookRef) (d : registry) :
  OrderedDict.get k d = None -> OrderedDict.del k (d ++ [(k, v)]) = d.
Proof.
  intros H. rewrite <- set_fresh by exact H. now apply del_set_fresh.
Qed.

Lemma get_appended_other (k k' : string) (v : HookRef) (d : registry) :
  k <> k' -> OrderedDict.get k' (d ++ [(k, v)]) = OrderedDict.get k' d.
Proof.
  intros Hne. induction d as [|[k1 v1] d IH]; simpl.
  - destruct (String.eqb_spec k' k); congruence.
  - now rewrite IH.
Qed.

(** Once entered, with the hook appended to the registry, a body that
    hands the registry back as it got it and a quiet [deleted] callback:
    the statement ends as the body ends and the registry is restored. *)
Lemma with_statement_after_enter (A : Type) (h : HookRef)
    (body : HookRef -> M U Val A) (s s_in : St) :
  __enter__ hooks h s = (Return h, s_in) ->
  OrderedDict.get (name_of h) (reg s) = None ->
  reg s_in = reg s ++ [(name_of h, h)] ->
  reg (snd (body h s_in)) = reg s_in ->
  quiet (deleted (hooks h) None) ->
  fst (with_statement hooks h body s) = fst (body h s_in)
  /\ reg (snd (with_statement hooks h body s)) = reg s
  /\ calls (snd (with_statement hooks h body s)) =
       calls (snd (body h s_in))
       ++ [CallDeleted h None (reg s ++ [(name_of h, h)])].
Proof.
  intros E1 Hfree R1 Hbody Hd.
  rewrite (@with_statement_entered A h body s s_in E1).
  destruct (body h s_in) as [r s2]. simpl in Hbody. simpl.
  assert (R2 : reg s2 = reg s ++ [(name_of h, h)])
    by (rewrite Hbody; exact R1).
  assert (G2 : OrderedDict.get (name_of h) (reg s2) = Some h)
    by (rewrite R2; now apply get_appended).
  destruct r as [a|e].
  - destruct (@exit_quiet h h None s2 G2 Hd) as (w3 & E3 & R3).
    rewrite E3. simpl. rewrite R3, R2. repeat split.
    now apply del_appended.
  - destruct (@exit_quiet h h (Some e) s2 G2 Hd) as (w3 & E3 & R3).
    rewrite E3. simpl. rewrite R3, R2. repeat split.
    now apply del_appended.
Qed.

(** X1: a [with] statement on a hook whose name is free, whose [added] and
    [deleted] callbacks are quiet and whose body leaves the registry alone,
    is transparent for the registry: the body runs with the hook appended
    to the registry, the statement ends as the body ends (same value, same
    error), and the registry afterwards is the registry before, entry for
    entry.  The only callbacks are [added] before the body and [deleted]
    after it. *)
Theorem with_statement_restores_registry (A : Type) (h : HookRef)
    (body : HookRef -> M U Val A) (s : St) :
  OrderedDict.get (name_of h) (reg s) = None ->
  quiet (added (hooks h) None) ->
  quiet (deleted (hooks h) None) ->
  (forall x s1, reg (snd (body x s1)) = reg s1) ->
  exists s_in,
    reg s_in = reg s ++ [(name_of h, h)]
    /\ calls s_in =
         calls s ++ [CallAdded h None (reg s ++ [(name_of h, h)])]
    /\ fst (with_statement hooks h body s) = fst (body h s_in)
    /\ reg (snd (with_statement hooks h body s)) = reg s
    /\ calls (snd (with_statement hooks h body s)) =
         calls (snd (body h s_in))
         ++ [CallDeleted h None (reg s ++ [(name_of h, h)])].
Proof.
  intros Hfree Ha Hd Hbody.
  destruct (@enter_quiet h s Hfree Ha) as (w1 & E1 & R1).
  set (s_in := {| world := w1;
                  calls := calls s ++ [CallAdded h None
                                         (reg s ++ [(name_of h, h)])] |}) in *.
  exists s_in. split; [exact R1|]. split; [reflexivity|].
  exact (@with_statement_after_enter A h body s s_in E1 Hfree R1
           (Hbody h s_in) Hd).
Qed.

(** X2: nesting a [with] statement inside one whose hook has the same name
    (the same hook or another instance) fails at the inner entry with the
    duplicate-name error; the inner body does not run, the inner hook
    receives no call, and the outer statement still unregisters its hook:
    the registry ends as it began. *)
Theorem nested_same_name_rejected (A : Type) (h g : HookRef)
    (body : HookRef -> M U Val A) (s : St) :
  OrderedDict.get (name_of h) (reg s) = None ->
  name_of g = name_of h ->
  quiet (added (hooks h) None) ->
  quiet (deleted (hooks h) None) ->
  let nested := with_statement hooks h
                  (fun _ => with_statement hooks g body) s in
  fst nested = Raise (already_exists (name_of h))
  /\ reg (snd nested) = reg s
  /\ calls (snd nested) =
       calls s ++ [CallAdded h None (reg s ++ [(name_of h, h)]);
                   CallDeleted h None (reg s ++ [(name_of h, h)])].
Proof.
  intros Hfree Hname Ha Hd nested.
  destruct (@enter_quiet h s Hfree Ha) as (w1 & E1 & R1).
  set (s_in := {| world := w1;
                  calls := calls s ++ [CallAdded h None
                                         (reg s ++ [(name_of h, h)])] |}) in *.
  assert (G : OrderedDict.get (name_of g) (reg s_in) = Some h).
  { rewrite Hname. simpl. rewrite R1. now apply get_appended. }
  assert (Ein : with_statement hooks g body s_in
                = (Raise (already_exists (name_of h)), s_in)).
  { unfold with_statement. rewrite (@enter_taken U Val hooks g h s_in G).
    now rewrite Hname. }
  destruct (@with_statement_after_enter A h
              (fun _ => with_statement hooks g body) s s_in E1 Hfree R1)
    as (F & R & C).
  - now rewrite Ein.
  - exact Hd.
  - subst nested. rewrite F, R, C, Ein. simpl.
    rewrite <- app_assoc. auto.
Qed.

(** X3: two [with] statements nested on hooks of distinct free names, with
    quiet callbacks and a body that leaves the registry alone: the body
    runs with both hooks in the registry, outer one first; the callbacks
    are [added] outer, [added] inner, then after the body [deleted] inner,
    [deleted] outer; the statement ends as the body ends and the registry
    is the one it started from. *)
Theorem nested_distinct_names (A : Type) (h1 h2 : HookRef)
    (body : HookRef -> M U Val A) (s : St) :
  name_of h1 <> name_of h2 ->
  OrderedDict.get (name_of h1) (reg s) = None ->
  OrderedDict.get (name_of h2) (reg s) = None ->
  quiet (added (hooks h1) None) -> quiet (deleted (hooks h1) None) ->
  quiet (added (hooks h2) None) -> quiet (deleted (hooks h2) None) ->
  (forall x s1, reg (snd (body x s1)) = reg s1) ->
  let r1 := reg s ++ [(name_of h1, h1)] in
  let r2 := r1 ++ [(name_of h2, h2)] in
  let nested := with_statement hooks h1
                  (fun _ => with_statement hooks h2 body) s in
  exists s_in,
    reg s_in = r2
    /\ calls s_in = calls s ++ [CallAdded h1 None r1; CallAdded h2 None r2]
    /\ fst nested = fst (body h2 s_in)
    /\ reg (snd nested) = reg s
    /\ calls (snd nested) =
         calls (snd (body h2 s_in))
         ++ [CallDeleted h2 None r2; CallDeleted h1 None r1].
Proof.
  intros Hne F1 F2 Ha1 Hd1 Ha2 Hd2 Hbody r1 r2 nested.
  destruct (@enter_quiet h1 s F1 Ha1) as (w1 & E1 & R1).
  set (s1 := {| world := w1; calls := calls s ++ [CallAdded h1 None r1] |})
    in *.
  assert (F2' : OrderedDict.get (name_of h2) (reg s1) = None).
  { simpl. rewrite R1. now rewrite get_appended_other. }
  destruct (@enter_quiet h2 s1 F2' Ha2) as (w2 & E2 & R2).
  simpl in E2, R2. rewrite R1 in E2, R2. fold r1 r2 in E2, R2.
  set (s2 := {| world := w2;
                calls := (calls s ++ [CallAdded h1 None r1])
                         ++ [CallAdded h2 None r2] |}) in *.
  destruct (@with_statement_after_enter A h2 body s1 s2 E2 F2')
    as (Fi & Ri & Ci).
  - simpl. now rewrite R1.
  - apply Hbody.
  - exact Hd2.
  - destruct (@with_statement_after_enter A h1
                (fun _ => with_statement hooks h2 body) s s1 E1 F1 R1 Ri Hd1)
      as (Fo & Ro & Co).
    exists s2. split; [exact R2|]. split.
    + simpl. now rewrite <- app_assoc.
    + subst nested. rewrite Fo, Ro, Co, Fi, Ci. simpl. rewrite R1.
      fold r1 r2. rewrite <- app_assoc. auto.
Qed.

(** X4: two hooks of distinct names, both registered, with quiet
    [deleted] callbacks, can be unregistered in either order: the second
    [__exit__] still finds its entry, both sequences return, and both leave
    the same registry, the one without the two names. *)
Theorem exits_in_either_order (h1 h2 : HookRef) (exc1 exc2 : option exn)
    (s : St) :
  name_of h1 <> name_of h2 ->
  OrderedDict.get (name_of h1) (reg s) = Some h1 ->
  OrderedDict.get (name_of h2) (reg s) = Some h2 ->
  quiet (deleted (hooks h1) None) ->
  quiet (deleted (hooks h2) None) ->
  let one_two := bind (__exit__ hooks h1 exc1)
                   (fun _ => __exit__ hooks h2 exc2) s in
  let two_one := bind (__exit__ hooks h2 exc2)
                   (fun _ => __exit__ hooks h1 exc1) s in
  fst one_two = Return tt /\ fst two_one = Return tt
  /\ reg (snd one_two) =
       OrderedDict.del (name_of h2) (OrderedDict.del (name_of h1) (reg s))
  /\ reg (snd two_one) = reg (snd one_two)
  /\ OrderedDict.get (name_of h1) (reg (snd one_two)) = None
  /\ OrderedDict.get (name_of h2) (reg (snd one_two)) = None.
Proof.
  intros Hne G1 G2 Q1 Q2 one_two two_one.
  destruct (@exit_quiet h1 h1 exc1 s G1 Q1) as (wa & Ea & Ra).
  set (sa := {| world := wa;
                calls := calls s ++ [CallDeleted h1 None (reg s)] |}) in *.
  assert (G2a : OrderedDict.get (name_of h2) (reg sa) = Some h2).
  { simpl. rewrite Ra, get_del_other; auto. }
  destruct (@exit_quiet h2 h2 exc2 sa G2a Q2) as (wb & Eb & Rb).
  destruct (@exit_quiet h2 h2 exc2 s G2 Q2) as (wc & Ec & Rc).
  set (sc := {| world := wc;
                calls := calls s ++ [CallDeleted h2 None (reg s)] |}) in *.
  assert (G1c : OrderedDict.get (name_of h1) (reg sc) = Some h1).
  { simpl. rewrite Rc, get_del_other; auto. }
  destruct (@exit_quiet h1 h1 exc1 sc G1c Q1) as (wd & Ed & Rd).
  subst one_two two_one. unfold bind. rewrite Ea, Eb, Ec, Ed. simpl.
  simpl in Rb, Rd. rewrite Rb, Rd, Ra, Rc.
  repeat split.
  - apply del_comm.
  - rewrite del_comm. apply get_del_same.
  - apply get_del_same.
Qed.

(** X5: after an [__exit__] that returned, its name is gone: the call was
    made on a registered name, issued one [deleted] call, and a second
    [__exit__] on the same hook raises [KeyError] and changes nothing. *)
Theorem exit_twice (self : HookRef) (exc exc' : option exn) (s s1 : St) :
  __exit__ hooks self exc s = (Return tt, s1) ->
  (exists stored,
     OrderedDict.get (name_of self) (reg s) = Some stored
     /\ calls s1 = calls s ++ [CallDeleted stored None (reg s)])
  /\ OrderedDict.get (name_of self) (reg s1) = None
  /\ __exit__ hooks self exc' s1 = (Raise (KeyError (name_of self)), s1).
Proof.
  intros E.
  assert (N : OrderedDict.get (name_of self) (reg s1) = None
              /\ exists stored,
                   OrderedDict.get (name_of self) (reg s) = Some stored
                   /\ calls s1 = calls s ++ [CallDeleted stored None (reg s)]).
  { unfold __exit__, bind, getitem, call_deleted, run, logged, delitem,
      OrderedDict.contains in E. simpl in E.
    destruct (OrderedDict.get (name_of self) (reg s)) as [g|] eqn:G;
      [|discriminate].
    destruct (deleted (hooks g) None (world s)) as [[[]|e] w'];
      simpl in E; [|discriminate].
    destruct (OrderedDict.get (name_of self) (link_hooks w')) eqn:G';
      inversion E; subst; simpl.
    split; [apply get_del_same | exists g; auto]. }
  destruct N as [N1 N2]. split; [exact N2|]. split; [exact N1|].
  unfold __exit__, bind, getitem. now rewrite N1.
Qed.



(** X8: both methods keep the registry well-named.  If every hook of the
    registry is stored under its own name and the callbacks leave the
    registry alone, the same holds after [__enter__] and after [__exit__],
    however they end. *)
Theorem names_agree_kept (self : HookRef) (exc : option exn) (s : St) :
  names_agree hooks (reg s) ->
  keeps_link_hooks (added (hooks self) None) ->
  (forall g, OrderedDict.get (name_of self) (reg s) = Some g ->
             keeps_link_hooks (deleted (hooks g) None)) ->
  names_agree hooks (reg (snd (__enter__ hooks self s)))
  /\ names_agree hooks (reg (snd (__exit__ hooks self exc s))).
Proof.
  intros Hn Ka Kd. split.
  - unfold __enter__, bind, contains, OrderedDict.contains, raise, setitem,
      call_added, run, logged, ret. simpl.
    destruct (OrderedDict.get (name_of self) (reg s)) eqn:G; simpl; auto.
    specialize (Ka (with_link_hooks (OrderedDict.set (name_of self) self)
                      (world s))).
    destruct (added (hooks self) None _) as [[[]|e] w']; simpl in *;
      rewrite Ka; intros k g Hk;
      (destruct (String.eqb_spec (name_of self) k) as [<-|Hne];
       [rewrite get_set_same in Hk; congruence
       |rewrite get_set_other in Hk by exact Hne; now apply Hn]).
  - unfold __exit__, bind, getitem, call_deleted, run, logged, delitem,
      OrderedDict.contains. simpl.
    destruct (OrderedDict.get (name_of self) (reg s)) as [g|] eqn:G;
      simpl; auto.
    specialize (Kd g eq_refl (world s)).
    destruct (deleted (hooks g) None (world s)) as [[[]|e] w']; simpl in *;
      [|now rewrite Kd].
    rewrite Kd, G. simpl. rewrite Kd.
    intros k g' Hk. apply Hn. now apply get_del_some in Hk.
Qed.

End Composition.

(** ** The compositions at work on the small programs *)
Section MoreInstances.

(** The callbacks of the counting hooks and of the base class are quiet. *)
Lemma counting_quiet (n : string) (l : option LinkRef) :
  quiet (added (Demo.counting n) l) /\ quiet (deleted (Demo.counting n) l).
Proof.
  split; intros w; exists (Demo.bump w); split; reflexivity.
Qed.

Lemma base_quiet (l : option LinkRef) :
  quiet (added (LinkHook_base nat nat) l)
  /\ quiet (deleted (LinkHook_base nat nat) l).
Proof. split; intros w; exists w; split; reflexivity. Qed.

(** A timer hook around a forward computation. *)
Lemma with_statement_restores_registry_witness :
  fst (with_statement Demo.hooks 1 Demo2.forward_body Demo.s0) = Return 42
  /\ link_hooks (world (snd (with_statement Demo.hooks 1 Demo2.forward_body
                               Demo.s0))) = [].
Proof.
  destruct (@with_statement_restores_registry nat nat Demo.hooks nat 1
              Demo2.forward_body Demo.s0 eq_refl
              (proj1 (counting_quiet "TimerHook" None))
              (proj2 (counting_quiet "TimerHook" None))
              (fun _ _ => eq_refl)) as (s_in & _ & _ & F & R & _).
  split; [exact F | exact R].
Defined.

(** A second timer entered inside the first. *)
Lemma nested_same_name_rejected_witness :
  fst (with_statement Demo2.hooks 0
         (fun _ => with_statement Demo2.hooks 2 Demo2.forward_body) Demo.s0)
    = Raise (KeyError "hook TimerHook already exists")
  /\ link_hooks (world (snd (with_statement Demo2.hooks 0
         (fun _ => with_statement Demo2.hooks 2 Demo2.forward_body) Demo.s0)))
     = [].
Proof.
  destruct (@nested_same_name_rejected nat nat Demo2.hooks nat 0 2
              Demo2.forward_body Demo.s0 eq_refl eq_refl
              (proj1 (counting_quiet "TimerHook" None))
              (proj2 (counting_quiet "TimerHook" None))) as (F & R & _).
  split; [exact F | exact R].
Defined.

(** The base hook around the timer hook around a failing body. *)
Lemma nested_distinct_names_witness :
  fst (with_statement Demo.hooks 0
         (fun _ => with_statement Demo.hooks 1 Demo.failing_body) Demo.s0)
    = Raise (Exception "body failed")
  /\ link_hooks (world (snd (with_statement Demo.hooks 0
         (fun _ => with_statement Demo.hooks 1 Demo.failing_body) Demo.s0)))
     = [].
Proof.
  assert (Hne : name (Demo.hooks 0) <> name (Demo.hooks 1)) by discriminate.
  destruct (@nested_distinct_names nat nat Demo.hooks nat 0 1
              Demo.failing_body Demo.s0 Hne eq_refl eq_refl
              (proj1 (base_quiet None)) (proj2 (base_quiet None))
              (proj1 (counting_quiet "TimerHook" None))
              (proj2 (counting_quiet "TimerHook" None))
              (fun _ _ => eq_refl)) as (s_in & _ & _ & F & R & _).
  split; [exact F | exact R].
Defined.

(** Both hooks registered, left in both orders. *)
Lemma exits_in_either_order_witness :
  link_hooks (world (snd (bind (__exit__ Demo.hooks 0 None)
                            (fun _ => __exit__ Demo.hooks 1 None)
                            (Demo.s_with [("LinkHook", 0); ("TimerHook", 1)]))))
    = []
  /\ link_hooks (world (snd (bind (__exit__ Demo.hooks 1 None)
                               (fun _ => __exit__ Demo.hooks 0 None)
                               (Demo.s_with [("LinkHook", 0);
                                             ("TimerHook", 1)]))))
     = [].
Proof.
  assert (Hne : name (Demo.hooks 0) <> name (Demo.hooks 1)) by discriminate.
  destruct (@exits_in_either_order nat nat Demo.hooks 0 1 None None
              (Demo.s_with [("LinkHook", 0); ("TimerHook", 1)])
              Hne eq_refl eq_refl
              (proj2 (base_quiet None))
              (proj2 (counting_quiet "TimerHook" None)))
    as (_ & _ & R1 & R2 & _).
  split; [exact R1 | exact (eq_trans R2 R1)].
Defined.

(** The timer hook left twice. *)
Lemma exit_twice_witness :
  __exit__ Demo.hooks 1 None (Demo.s_with [("TimerHook", 1)])
    = (Return tt,
       {| world := Demo.bump (Demo.w_with []);
          calls := [CallDeleted 1 None [("TimerHook", 1)]] |})
  /\ __exit__ Demo.hooks 1 None
       {| world := Demo.bump (Demo.w_with []);
          calls := [CallDeleted 1 None [("TimerHook", 1)]] |}
     = (Raise (KeyError "TimerHook"),
        {| world := Demo.bump (Demo.w_with []);
           calls := [CallDeleted 1 None [("TimerHook", 1)]] |}).
Proof.
  split; [reflexivity|].
  exact (proj2 (proj2 (@exit_twice nat nat Demo.hooks 1 None None
                         (Demo.s_with [("TimerHook", 1)])
                         {| world := Demo.bump (Demo.w_with []);
                            calls := [CallDeleted 1 None [("TimerHook", 1)]] |}
                         eq_refl))).
Defined.



(** The registry that holds the base hook under its name is well-named. *)
Lemma base_registered_agrees :
  names_agree Demo.hooks [("LinkHook", 0)].
Proof.
  intros k g H. simpl in H.
  destruct (String.eqb_spec k "LinkHook") as [->|]; [|discriminate].
  now inversion H.
Qed.

(** On the registry that holds the base hook: entering the timer hook adds
    a second entry, leaving with the base hook removes the first; both
    registries are well-named. *)
Lemma names_agree_kept_witness :
  names_agree Demo.hooks (link_hooks (world (Demo.s_with [("LinkHook", 0)])))
  /\ link_hooks (world (snd (__enter__ Demo.hooks 1
                               (Demo.s_with [("LinkHook", 0)]))))
     = [("LinkHook", 0); ("TimerHook", 1)]
  /\ names_agree Demo.hooks
       (link_hooks (world (snd (__enter__ Demo.hooks 1
                                  (Demo.s_with [("LinkHook", 0)])))))
  /\ link_hooks (world (snd (__exit__ Demo.hooks 0 None
                               (Demo.s_with [("LinkHook", 0)])))) = []
  /\ names_agree Demo.hooks
       (link_hooks (world (snd (__exit__ Demo.hooks 0 None
                                  (Demo.s_with [("LinkHook", 0)]))))).
Proof.
  split; [exact base_registered_agrees|]. split; [reflexivity|].
  split.
  - refine (proj1 (@names_agree_kept nat nat Demo.hooks 1 None
                     (Demo.s_with [("LinkHook", 0)]) base_registered_agrees
                     (fun w => eq_refl) _)).
    intros g H. discriminate H.
  - split; [reflexivity|].
    refine (proj2 (@names_agree_kept nat nat Demo.hooks 0 None
                     (Demo.s_with [("LinkHook", 0)]) base_registered_agrees
                     (fun w => eq_refl) _)).
    intros g H w. inversion H. reflexivity.
Defined.

End MoreInstances.
